(** * Function invocation and trait conformance of the Clarity VM

    A shallow embedding of [src/vm/callables.rs]: the data carried by a
    [DefinedFunction], the argument binder [execute_apply] and the trait
    conformance check [check_trait_expectations], together with the
    constructors of [FunctionIdentifier].

    The collaborators that live in other modules of the VM (the expression
    evaluator, the type admission predicates and the trait tables of a
    contract context) are kept abstract: they are the [Variable]s of the
    sections below, so every theorem holds for all of them. *)

From Stdlib Require Import ZArith Lia Ascii.
From stdpp Require Import base gmap strings list.

Open Scope string_scope.

(* ------------------------------------------------------------------ *)
(** ** Values, types and errors *)

Record QualifiedContractIdentifier := {
  issuer : string;
  contract_name : string
}.

#[global] Instance QualifiedContractIdentifier_eq_dec :
  EqDecision QualifiedContractIdentifier.
Proof. solve_decision. Defined.

(** [TraitIdentifier { contract_identifier, name }]: the canonical identity
    of a trait. *)
Record TraitIdentifier := {
  ti_contract_identifier : QualifiedContractIdentifier;
  ti_name : string
}.

#[global] Instance TraitIdentifier_eq_dec : EqDecision TraitIdentifier.
Proof. solve_decision. Defined.

Inductive PrincipalData :=
  | StandardPrincipal (addr : string)
  | Contract (contract_id : QualifiedContractIdentifier).

Inductive Value :=
  | Int (i : Z)
  | UInt (u : Z)
  | Bool (b : bool)
  | Principal (p : PrincipalData)
  | OptionalNone
  | OptionalSome (v : Value).

Inductive TypeSignature :=
  | NoType
  | IntType
  | UIntType
  | BoolType
  | PrincipalType
  | OptionalType (t : TypeSignature)
  | TraitReferenceType (trait_reference : string).

(** The signature of a trait method, as stored in a trait definition. *)
Record FunctionSignature := {
  args : list TypeSignature;
  returns : TypeSignature
}.

Inductive CheckErrors :=
  | IncorrectArgumentCount (expected actual : nat)
  | TypeValueError (t : TypeSignature) (v : Value)
  | NameAlreadyUsed (n : string)
  | BadTraitImplementation (trait_name function_name : string).

(** [vm::errors::Error]: checked errors, the early-return signal carrying
    the returned value, and the remaining runtime errors (kept opaque). *)
Inductive Error :=
  | Unchecked (e : CheckErrors)
  | ShortReturn (v : Value)
  | Runtime (code : nat).

(** The outcome of a Rust call: [Ok], [Err], or a panic (an [unwrap] of
    [None]). *)
Inductive outcome (A : Type) :=
  | Ok (a : A)
  | Err (e : Error)
  | Panic.
Arguments Ok {A} a.
Arguments Err {A} e.
Arguments Panic {A}.

#[global] Instance outcome_ret : MRet outcome := fun A a => Ok a.
#[global] Instance outcome_bind : MBind outcome :=
  fun A B f m =>
    match m with
    | Ok a => f a
    | Err e => Err e
    | Panic => Panic
    end.

(** [Option::unwrap]. *)
Definition unwrap {A} (o : option A) : outcome A :=
  match o with Some a => Ok a | None => Panic end.

(** [CheckErrors] converted into an [Error] by [?] / [.into()]. *)
Definition throw {A} (e : CheckErrors) : outcome A := Err (Unchecked e).

(* ------------------------------------------------------------------ *)
(** ** Function identifiers and defined functions *)

Record FunctionIdentifier := { identifier : string }.

Definition new_native_function (name : string) : FunctionIdentifier :=
  {| identifier := "_native_:" +:+ name |}.

Definition new_user_function (name context : string) : FunctionIdentifier :=
  {| identifier := context +:+ ":" +:+ name |}.

Inductive DefineType := ReadOnly | Public | Private.

Section Functions.
(** The body expression is opaque to this module. *)
Variable SymbolicExpression : Type.

Record DefinedFunction := {
  df_identifier : FunctionIdentifier;
  name : string;
  arg_types : list TypeSignature;
  define_type : DefineType;
  arguments : list string;
  body : SymbolicExpression
}.

(** [DefinedFunction::new]: the parameter list is unzipped into two
    parallel lists. *)
Definition new_defined_function (arguments_ : list (string * TypeSignature))
    (body_ : SymbolicExpression) (define_type_ : DefineType)
    (name_ : string) (context_name : string) : DefinedFunction :=
  {| df_identifier := new_user_function name_ context_name;
     name := name_;
     arguments := (split arguments_).1;
     define_type := define_type_;
     body := body_;
     arg_types := (split arguments_).2 |}.
End Functions.

Arguments df_identifier {_} _.
Arguments name {_} _.
Arguments arg_types {_} _.
Arguments define_type {_} _.
Arguments arguments {_} _.
Arguments body {_} _.

(** [LocalContext]: the two maps of the call-local context used here. *)
Record LocalContext := {
  variables : gmap string Value;
  callable_contracts : gmap string (QualifiedContractIdentifier * TraitIdentifier)
}.

Definition LocalContext_new : LocalContext :=
  {| variables := ∅; callable_contracts := ∅ |}.

(* ------------------------------------------------------------------ *)
(** ** [execute_apply] *)

Section ExecuteApply.
Variable SymbolicExpression : Type.
Variable Environment : Type.
Variable ContractContext : Type.

(** [env.contract_context]. *)
Variable contract_context : Environment -> ContractContext.
(** [ContractContext::lookup_trait_reference]. *)
Variable lookup_trait_reference : ContractContext -> string -> option TraitIdentifier.
(** [TypeSignature::admits]. *)
Variable admits : TypeSignature -> Value -> bool.
(** [vm::eval]: evaluates an expression; [inl] is [Ok], [inr] is [Err]. *)
Variable eval : SymbolicExpression -> Environment -> LocalContext -> Value + Error.

(** One iteration of the binding loop (lines 73-90). *)
Definition bind_arg (cc : ContractContext) (context : LocalContext)
    (arg : string * TypeSignature * Value) : outcome LocalContext :=
  let '(name_, type_sig, value) := arg in
  match type_sig, value with
  | TraitReferenceType trait_reference, Principal (Contract contract_id) =>
      trait_identifier ← unwrap (lookup_trait_reference cc trait_reference);
      Ok {| variables := variables context;
            callable_contracts :=
              <[name_ := (contract_id, trait_identifier)]> (callable_contracts context) |}
  | _, _ =>
      if negb (admits type_sig value) then throw (TypeValueError type_sig value)
      else match variables context !! name_ with
           | Some _ => throw (NameAlreadyUsed name_)
           | None =>
               Ok {| variables := <[name_ := value]> (variables context);
                     callable_contracts := callable_contracts context |}
           end
  end.

(** The whole loop over the zipped (name, type, value) triples. *)
Fixpoint bind_args (cc : ContractContext) (context : LocalContext)
    (l : list (string * TypeSignature * Value)) : outcome LocalContext :=
  match l with
  | [] => Ok context
  | arg :: rest => context' ← bind_arg cc context arg; bind_args cc context' rest
  end.

(** [self.arguments.iter().zip(self.arg_types.iter()).zip(args.iter())]. *)
Definition arg_iterator (f : DefinedFunction SymbolicExpression) (args_ : list Value)
    : list (string * TypeSignature * Value) :=
  zip (zip (arguments f) (arg_types f)) args_.

(** Lines 95-105: an early return is a successful result. *)
Definition unwrap_short_return (result : Value + Error) : outcome Value :=
  match result with
  | inl r => Ok r
  | inr e => match e with
             | ShortReturn v => Ok v
             | _ => Err e
             end
  end.

Definition execute_apply (f : DefinedFunction SymbolicExpression)
    (args_ : list Value) (env : Environment) : outcome Value :=
  let context := LocalContext_new in
  if negb (Nat.eqb (length args_) (length (arguments f)))
  then throw (IncorrectArgumentCount (length (arguments f)) (length args_))
  else
    context ← bind_args (contract_context env) context (arg_iterator f args_);
    unwrap_short_return (eval (body f) env context).
End ExecuteApply.

(* ------------------------------------------------------------------ *)
(** ** [check_trait_expectations] *)

Section CheckTrait.
Variable SymbolicExpression : Type.
Variable ContractContext : Type.

(** [ContractContext::lookup_trait_reference]. *)
Variable lookup_trait_reference : ContractContext -> string -> option TraitIdentifier.
(** [ContractContext::lookup_trait_definition]: the method table of a
    trait defined in that contract. *)
Variable lookup_trait_definition :
  ContractContext -> string -> option (gmap string FunctionSignature).
(** [TypeSignature::admits_type]. *)
Variable admits_type : TypeSignature -> TypeSignature -> bool.

(** One iteration of the loop of lines 122-139. *)
Definition check_arg_pair (contract_defining_trait contract_to_check : ContractContext)
    (trait_name function_name : string)
    (p : TypeSignature * TypeSignature) : outcome unit :=
  let bad := BadTraitImplementation trait_name function_name in
  let '(expected_arg, actual_arg) := p in
  match expected_arg, actual_arg with
  | TraitReferenceType expected, TraitReferenceType actual =>
      match lookup_trait_reference contract_defining_trait expected with
      | None => throw bad
      | Some expected_trait_id =>
          match lookup_trait_reference contract_to_check actual with
          | None => throw bad
          | Some actual_trait_id =>
              if decide (actual_trait_id ≠ expected_trait_id) then throw bad
              else Ok tt
          end
      end
  | _, arg_sig =>
      if negb (admits_type expected_arg arg_sig) then throw bad else Ok tt
  end.

Fixpoint check_arg_pairs (contract_defining_trait contract_to_check : ContractContext)
    (trait_name function_name : string)
    (l : list (TypeSignature * TypeSignature)) : outcome unit :=
  match l with
  | [] => Ok tt
  | p :: rest =>
      _ ← check_arg_pair contract_defining_trait contract_to_check
            trait_name function_name p;
      check_arg_pairs contract_defining_trait contract_to_check
        trait_name function_name rest
  end.

Definition check_trait_expectations (self : DefinedFunction SymbolicExpression)
    (contract_defining_trait : ContractContext)
    (trait_identifier : TraitIdentifier)
    (contract_to_check : ContractContext) : outcome unit :=
  let trait_name := ti_name trait_identifier in
  constraining_trait ← unwrap (lookup_trait_definition contract_defining_trait trait_name);
  expected_sig ← unwrap (constraining_trait !! name self);
  if negb (Nat.eqb (length (args expected_sig)) (length (arg_types self)))
  then throw (BadTraitImplementation trait_name (name self))
  else check_arg_pairs contract_defining_trait contract_to_check
         trait_name (name self) (zip (args expected_sig) (arg_types self)).
End CheckTrait.

Arguments bind_arg {_} _ _ _ _ _.
Arguments bind_args {_} _ _ _ _ _.
Arguments arg_iterator {_} _ _.
Arguments execute_apply {_ _ _} _ _ _ _ _ _ _.
Arguments check_arg_pair {_} _ _ _ _ _ _ _.
Arguments check_arg_pairs {_} _ _ _ _ _ _ _.
Arguments check_trait_expectations {_ _} _ _ _ _ _ _ _.

(** Whether an argument takes the deferred, trait-reference arm of the
    binding loop (line 75). *)
Definition deferred (type_sig : TypeSignature) (value : Value) : bool :=
  match type_sig, value with
  | TraitReferenceType _, Principal (Contract _) => true
  | _, _ => false
  end.

(** Whether a declared parameter type is a trait reference that the
    trait-reference table of a contract resolves. *)
Definition resolves {CC} (lookup_trait_reference : CC -> string -> option TraitIdentifier)
    (cc : CC) (t : TypeSignature) : Prop :=
  match t with
  | TraitReferenceType r => is_Some (lookup_trait_reference cc r)
  | _ => True
  end.

(** ** Sample collaborators, used to run the definitions on concrete inputs *)
Module Sample.
Record ContractContext := {
  referenced_traits : gmap string TraitIdentifier;
  defined_traits : gmap string (gmap string FunctionSignature)
}.

Definition lookup_trait_reference (cc : ContractContext) (r : string) :=
  referenced_traits cc !! r.
Definition lookup_trait_definition (cc : ContractContext) (t : string) :=
  defined_traits cc !! t.

Fixpoint admits (t : TypeSignature) (v : Value) : bool :=
  match t, v with
  | IntType, Int _ | UIntType, UInt _ | BoolType, Bool _ => true
  | PrincipalType, Principal _ => true
  | OptionalType _, OptionalNone => true
  | OptionalType t', OptionalSome v' => admits t' v'
  | _, _ => false
  end.

#[global] Instance TypeSignature_eq_dec : EqDecision TypeSignature.
Proof. solve_decision. Defined.

Definition admits_type (t1 t2 : TypeSignature) : bool := bool_decide (t1 = t2).

Definition Environment := ContractContext.
Definition contract_context (env : Environment) : ContractContext := env.

(** A body whose evaluation is fixed by the test. *)
Definition SymbolicExpression := (Value + Error)%type.
Definition eval (e : SymbolicExpression) (_ : Environment) (_ : LocalContext) := e.

Definition issuer_addr := "SP2J6ZY48GV1EZ5V2V5RB9MP66SW86PYKKNRV9EJ7".
Definition token_contract : QualifiedContractIdentifier :=
  {| issuer := issuer_addr; contract_name := "token" |}.
Definition other_contract : QualifiedContractIdentifier :=
  {| issuer := issuer_addr; contract_name := "other" |}.
Definition trait_id : TraitIdentifier :=
  {| ti_contract_identifier := token_contract; ti_name := "ft-trait" |}.
Definition trait_id' : TraitIdentifier :=
  {| ti_contract_identifier := other_contract; ti_name := "ft-trait" |}.

(** A contract that refers to [trait_id] as [ft] and defines it. *)
Definition ft_method : FunctionSignature :=
  {| args := [TraitReferenceType "ft"; UIntType]; returns := BoolType |}.
Definition defining : ContractContext :=
  {| referenced_traits := {[ "ft" := trait_id ]};
     defined_traits := {[ "ft-trait" := {[ "transfer" := ft_method ]} ]} |}.
(** A contract that refers to the same trait as [tok]. *)
Definition checked : ContractContext :=
  {| referenced_traits := {[ "tok" := trait_id; "ft" := trait_id' ]};
     defined_traits := ∅ |}.

Definition context_name := "SP2J6ZY48GV1EZ5V2V5RB9MP66SW86PYKKNRV9EJ7.token".

Definition mk_named (fname : string) (params : list (string * TypeSignature))
    (result : Value + Error) : DefinedFunction SymbolicExpression :=
  new_defined_function _ params result Private fname context_name.

Definition mk_function := mk_named "f".

Definition run (f : DefinedFunction SymbolicExpression) (args_ : list Value) :=
  execute_apply contract_context lookup_trait_reference admits eval f args_ defining.
End Sample.

Example sample_short_return :
  Sample.run (Sample.mk_function [("a", IntType)] (inr (ShortReturn (Int 7)))) [Int 1]
  = Ok (Int 7).
Proof. reflexivity. Qed.

Example sample_arity :
  Sample.run (Sample.mk_function [("a", IntType); ("b", IntType)] (inl (Int 0))) [Int 1]
  = Err (Unchecked (IncorrectArgumentCount 2 1)).
Proof. reflexivity. Qed.

Example sample_type_mismatch :
  Sample.run (Sample.mk_function [("a", IntType)] (inl (Int 0))) [Bool true]
  = Err (Unchecked (TypeValueError IntType (Bool true))).
Proof. reflexivity. Qed.

(* ------------------------------------------------------------------ *)
(** ** Facts about the binding loop *)

Section BindFacts.
Context {CC : Type}.
Variable lookup_trait_reference : CC -> string -> option TraitIdentifier.

Lemma bind_args_app (admits : TypeSignature -> Value -> bool) cc context l1 l2 :
  bind_args lookup_trait_reference admits cc context (l1 ++ l2) =
  (context' ← bind_args lookup_trait_reference admits cc context l1;
   bind_args lookup_trait_reference admits cc context' l2).
Proof.
  revert context. induction l1 as [|arg l1 IH]; intros context; [done|].
  simpl. destruct (bind_arg _ _ _ _ _); simpl; auto.
Qed.

(** The binding loop consults [admits] only on non-deferred arguments. *)
Lemma bind_arg_admits_indep (admits admits' : TypeSignature -> Value -> bool)
    cc context n t v :
  (deferred t v = false -> admits t v = admits' t v) ->
  bind_arg lookup_trait_reference admits cc context (n, t, v) =
  bind_arg lookup_trait_reference admits' cc context (n, t, v).
Proof.
  intros Hagree. unfold bind_arg.
  destruct t; try (rewrite Hagree by reflexivity; reflexivity).
  destruct v as [| | |p| |]; try (rewrite Hagree by reflexivity; reflexivity).
  destruct p; [rewrite Hagree by reflexivity|]; reflexivity.
Qed.

Lemma bind_args_admits_indep (admits admits' : TypeSignature -> Value -> bool)
    cc context l :
  (forall t v, deferred t v = false -> admits t v = admits' t v) ->
  bind_args lookup_trait_reference admits cc context l =
  bind_args lookup_trait_reference admits' cc context l.
Proof.
  intros Hagree. revert context.
  induction l as [|[[n t] v] l IH]; intros context; [done|].
  cbn [bind_args]. rewrite (bind_arg_admits_indep admits admits') by auto.
  destruct (bind_arg _ admits' _ _ _); simpl; auto.
Qed.

(** The binding loop panics only on an unresolved trait reference. *)
Lemma bind_args_no_panic (admits : TypeSignature -> Value -> bool) cc context l :
  Forall (fun arg : string * TypeSignature * Value =>
            resolves lookup_trait_reference cc arg.1.2) l ->
  bind_args lookup_trait_reference admits cc context l <> Panic.
Proof.
  intros Hall. revert context.
  induction Hall as [|[[n t] v] l Hres Hall IH]; intros context; simpl; [done|].
  unfold bind_arg. simpl in Hres.
  destruct t; destruct v as [| | |[]| |]; simpl;
    repeat match goal with
    | |- context [if ?b then _ else _] => destruct b; simpl
    | |- context [match ?m with Some _ => _ | None => _ end] =>
        destruct m eqn:?; simpl
    end; try discriminate; try apply IH.
  destruct Hres as [x Hx]. rewrite Hx. simpl. apply IH.
Qed.
End BindFacts.

Lemma zip_types_in {A C} (ns : list A) (ts : list TypeSignature) (vs : list C) :
  Forall (fun arg : A * TypeSignature * C => arg.1.2 ∈ ts) (zip (zip ns ts) vs).
Proof.
  revert ts vs. induction ns as [|n ns IH]; intros [|t ts] [|v vs]; simpl;
    constructor; [simpl; left|].
  eapply Forall_impl; [apply IH|]. intros x Hx. by right.
Qed.

(* ------------------------------------------------------------------ *)
(** ** Claims about [execute_apply] *)

Section ExecuteApplyClaims.
Context {SE Env CC : Type}.
Variable contract_context : Env -> CC.
Variable lookup_trait_reference : CC -> string -> option TraitIdentifier.

(** C1. When a parameter is declared with a trait-reference type and the
    supplied value is a contract principal, the binding step records the
    pair (principal, trait identity resolved through the current
    contract's trait-reference table) in the callable-contracts map under
    the parameter's name and leaves the variables map unchanged; and no
    admission check is made on such an argument: the result of the whole
    call is the same for any two admission predicates that agree on the
    other arguments. *)
Theorem execute_apply_trait_argument_deferred
    (admits admits' : TypeSignature -> Value -> bool)
    (eval : SE -> Env -> LocalContext -> Value + Error)
    (cc : CC) (context : LocalContext) (n r : string)
    (contract_id : QualifiedContractIdentifier) (trait_identifier : TraitIdentifier) :
  lookup_trait_reference cc r = Some trait_identifier ->
  bind_arg lookup_trait_reference admits cc context
    (n, TraitReferenceType r, Principal (Contract contract_id)) =
    Ok {| variables := variables context;
          callable_contracts :=
            <[n := (contract_id, trait_identifier)]> (callable_contracts context) |}
  /\ ((forall t v, deferred t v = false -> admits t v = admits' t v) ->
      forall (f : DefinedFunction SE) (args_ : list Value) (env : Env),
        execute_apply contract_context lookup_trait_reference admits eval f args_ env =
        execute_apply contract_context lookup_trait_reference admits' eval f args_ env).
Proof.
  intros Hlookup. split.
  - simpl. rewrite Hlookup. reflexivity.
  - intros Hagree f args_ env. unfold execute_apply.
    rewrite (bind_args_admits_indep _ admits admits') by exact Hagree.
    reflexivity.
Qed.

(** C3. Once the arguments are bound, the outcome of the body evaluation
    decides the call: an early return carrying [v] is the success [v],
    any other error [e] is returned as [e], and a success [r] is returned
    unchanged. *)
Theorem execute_apply_body_outcome
    (admits : TypeSignature -> Value -> bool)
    (eval : SE -> Env -> LocalContext -> Value + Error)
    (f : DefinedFunction SE) (args_ : list Value) (env : Env) (context : LocalContext) :
  length args_ = length (arguments f) ->
  bind_args lookup_trait_reference admits (contract_context env) LocalContext_new
    (arg_iterator f args_) = Ok context ->
  (forall v, eval (body f) env context = inr (ShortReturn v) ->
     execute_apply contract_context lookup_trait_reference admits eval f args_ env = Ok v)
  /\ (forall e, eval (body f) env context = inr e -> (forall v, e <> ShortReturn v) ->
     execute_apply contract_context lookup_trait_reference admits eval f args_ env = Err e)
  /\ (forall r, eval (body f) env context = inl r ->
     execute_apply contract_context lookup_trait_reference admits eval f args_ env = Ok r).
Proof.
  intros Hlen Hbind. unfold execute_apply.
  rewrite Hlen, Nat.eqb_refl, Hbind. simpl.
  split; [|split].
  - intros v Hv. rewrite Hv. reflexivity.
  - intros e He Hnot. rewrite He. destruct e as [ce|v|code]; try reflexivity.
    exfalso. exact (Hnot v eq_refl).
  - intros r Hr. rewrite Hr. reflexivity.
Qed.

(** C4. A call with the wrong number of arguments fails with
    [IncorrectArgumentCount (parameter count, argument count)], whatever
    the evaluator: the body is never evaluated. *)
Theorem execute_apply_arity_mismatch
    (admits : TypeSignature -> Value -> bool)
    (f : DefinedFunction SE) (args_ : list Value) (env : Env) :
  length args_ <> length (arguments f) ->
  forall eval : SE -> Env -> LocalContext -> Value + Error,
    execute_apply contract_context lookup_trait_reference admits eval f args_ env =
    Err (Unchecked (IncorrectArgumentCount (length (arguments f)) (length args_))).
Proof.
  intros Hlen eval. unfold execute_apply.
  apply Nat.eqb_neq in Hlen. rewrite Hlen. reflexivity.
Qed.

(** C9. If the current contract's trait-reference table resolves every
    trait reference among the declared parameter types, the [unwrap] of
    the trait lookup never fails: [execute_apply] does not panic. *)
Theorem execute_apply_trait_lookup_no_panic
    (admits : TypeSignature -> Value -> bool)
    (eval : SE -> Env -> LocalContext -> Value + Error)
    (f : DefinedFunction SE) (args_ : list Value) (env : Env) :
  (forall t, t ∈ arg_types f -> resolves lookup_trait_reference (contract_context env) t) ->
  execute_apply contract_context lookup_trait_reference admits eval f args_ env <> Panic.
Proof.
  intros Hres. unfold execute_apply.
  destruct (Nat.eqb _ _); simpl; [|discriminate].
  destruct (bind_args _ _ _ _ _) as [context|e|] eqn:Hbind; simpl.
  - destruct (eval _ _ _) as [r|[]]; simpl; discriminate.
  - discriminate.
  - exfalso. revert Hbind. apply bind_args_no_panic.
    eapply Forall_impl; [apply zip_types_in|]. intros arg Hin. by apply Hres.
Qed.
End ExecuteApplyClaims.

Lemma bind_arg_rejects {CC} (lookup_trait_reference : CC -> string -> option TraitIdentifier)
    (admits : TypeSignature -> Value -> bool) cc context n t v :
  deferred t v = false -> admits t v = false ->
  bind_arg lookup_trait_reference admits cc context (n, t, v) = throw (TypeValueError t v).
Proof.
  intros Hdef Hadm.
  destruct t; destruct v as [| | |[]| |]; simpl in Hdef |- *;
    try discriminate; rewrite Hadm; reflexivity.
Qed.

Section TypeErrorClaim.
Context {SE Env CC : Type}.
Variable contract_context : Env -> CC.
Variable lookup_trait_reference : CC -> string -> option TraitIdentifier.

(** C5 (amended). If the argument count is right, every argument before a
    position binds successfully, and at that position the argument is not
    a trait reference given a contract principal and its declared type
    [t] does not admit its value [v], the call fails with
    [TypeValueError (t, v)] whatever the evaluator: binding stops there
    and the body is never evaluated. *)
Theorem execute_apply_first_type_error
    (admits : TypeSignature -> Value -> bool)
    (f : DefinedFunction SE) (args_ : list Value) (env : Env)
    (pre post : list (string * TypeSignature * Value))
    (n : string) (t : TypeSignature) (v : Value) (context : LocalContext) :
  length args_ = length (arguments f) ->
  arg_iterator f args_ = (pre ++ (n, t, v) :: post)%list ->
  bind_args lookup_trait_reference admits (contract_context env) LocalContext_new pre
    = Ok context ->
  deferred t v = false -> admits t v = false ->
  forall eval : SE -> Env -> LocalContext -> Value + Error,
    execute_apply contract_context lookup_trait_reference admits eval f args_ env =
    Err (Unchecked (TypeValueError t v)).
Proof.
  intros Hlen Hit Hpre Hdef Hadm eval. unfold execute_apply.
  rewrite Hlen, Nat.eqb_refl, Hit, bind_args_app, Hpre.
  cbn [bind_args negb mbind outcome_bind].
  rewrite bind_arg_rejects by assumption. reflexivity.
Qed.
End TypeErrorClaim.

(** C5 (counterexample). The third argument is the first one whose type
    does not admit its value, yet the call fails with [NameAlreadyUsed],
    raised by the second argument, not with [TypeValueError]. *)
Lemma execute_apply_type_error_preempted :
  let f := Sample.mk_function [("x", IntType); ("x", IntType); ("y", IntType)] (inl (Int 0)) in
  let a := [Int 1; Int 2; Bool true] in
  arg_iterator f a !! 2 = Some ("y", IntType, Bool true) /\
  deferred IntType (Bool true) = false /\
  Sample.admits IntType (Bool true) = false /\
  Sample.admits IntType (Int 1) = true /\ Sample.admits IntType (Int 2) = true /\
  Sample.run f a = Err (Unchecked (NameAlreadyUsed "x")) /\
  Sample.run f a <> Err (Unchecked (TypeValueError IntType (Bool true))).
Proof. vm_compute. repeat split; discriminate. Qed.

(** C6. Evaluation at the failing input: two parameters named [x] are
    accepted when they are trait references given contract principals, and
    also when a trait-reference [x] is followed by an ordinary [x]; only two
    ordinary parameters named [x] raise [NameAlreadyUsed]. *)
Theorem execute_apply_duplicate_trait_parameter :
  Sample.run
    (Sample.mk_function [("x", TraitReferenceType "ft"); ("x", TraitReferenceType "ft")]
       (inl (Int 0)))
    [Principal (Contract Sample.token_contract); Principal (Contract Sample.other_contract)]
  = Ok (Int 0)
  /\ Sample.run
       (Sample.mk_function [("x", TraitReferenceType "ft"); ("x", IntType)] (inl (Int 0)))
       [Principal (Contract Sample.token_contract); Int 1]
  = Ok (Int 0)
  /\ Sample.run (Sample.mk_function [("x", IntType); ("x", IntType)] (inl (Int 0)))
       [Int 1; Int 2]
  = Err (Unchecked (NameAlreadyUsed "x")).
Proof. vm_compute. repeat split. Qed.

(* ------------------------------------------------------------------ *)
(** ** Claims about [check_trait_expectations] *)

(** Compatibility of one parameter position, in the words of the
    conformance rule: two trait references must denote the same trait
    identity, each resolved in its own contract; any other pair must be
    admitted by the expected type. *)
Definition position_compatible {CC}
    (lookup_trait_reference : CC -> string -> option TraitIdentifier)
    (admits_type : TypeSignature -> TypeSignature -> bool)
    (contract_defining_trait contract_to_check : CC)
    (expected_arg actual_arg : TypeSignature) : Prop :=
  match expected_arg, actual_arg with
  | TraitReferenceType expected, TraitReferenceType actual =>
      exists trait_id,
        lookup_trait_reference contract_defining_trait expected = Some trait_id /\
        lookup_trait_reference contract_to_check actual = Some trait_id
  | _, _ => admits_type expected_arg actual_arg = true
  end.

(** A trait method table whose return types are replaced, method by method. *)
Definition with_returns (new_returns : string -> TypeSignature)
    (tbl : gmap string FunctionSignature) : gmap string FunctionSignature :=
  map_imap (fun k sig => Some {| args := args sig; returns := new_returns k |}) tbl.

Section CheckTraitClaims.
Context {SE CC : Type}.
Variable lookup_trait_reference : CC -> string -> option TraitIdentifier.
Variable admits_type : TypeSignature -> TypeSignature -> bool.
Variables contract_defining_trait contract_to_check : CC.

Lemma check_arg_pair_ok trait_name function_name expected_arg actual_arg :
  check_arg_pair lookup_trait_reference admits_type contract_defining_trait
    contract_to_check trait_name function_name (expected_arg, actual_arg) = Ok tt <->
  position_compatible lookup_trait_reference admits_type contract_defining_trait
    contract_to_check expected_arg actual_arg.
Proof.
  unfold check_arg_pair, position_compatible, throw.
  destruct expected_arg as [| | | | |e|x], actual_arg as [| | | | |a|y];
    try (destruct (admits_type _ _); simpl; split; congruence).
  destruct (lookup_trait_reference contract_defining_trait x) as [te|] eqn:He;
    destruct (lookup_trait_reference contract_to_check y) as [ta|] eqn:Ha;
    try (split; [discriminate|intros (t & H1 & H2); congruence]).
  case_decide as Hne; split.
  - discriminate.
  - intros (t & H1 & H2). congruence.
  - intros _. exists te. split; [reflexivity|]. f_equal.
    destruct (decide (ta = te)); [done|contradiction].
  - reflexivity.
Qed.

Lemma check_arg_pair_bad trait_name function_name p :
  check_arg_pair lookup_trait_reference admits_type contract_defining_trait
    contract_to_check trait_name function_name p = Ok tt \/
  check_arg_pair lookup_trait_reference admits_type contract_defining_trait
    contract_to_check trait_name function_name p =
    throw (BadTraitImplementation trait_name function_name).
Proof.
  destruct p as [e a]. unfold check_arg_pair.
  destruct e, a; repeat case_match; auto.
Qed.

Lemma check_arg_pairs_ok trait_name function_name
    (es as_ : list TypeSignature) :
  length es = length as_ ->
  check_arg_pairs lookup_trait_reference admits_type contract_defining_trait
    contract_to_check trait_name function_name (zip es as_) = Ok tt <->
  Forall2 (position_compatible lookup_trait_reference admits_type
             contract_defining_trait contract_to_check) es as_.
Proof.
  revert as_. induction es as [|e es IH]; intros [|a as_] Hlen;
    simpl in Hlen; try discriminate.
  - split; [constructor|reflexivity].
  - cbn [zip zip_with check_arg_pairs].
    rewrite Forall2_cons, <- (check_arg_pair_ok trait_name function_name),
      <- (IH as_) by lia.
    destruct (check_arg_pair_bad trait_name function_name (e, a)) as [H|H];
      unfold throw in H; rewrite H; cbn [mbind outcome_bind].
    + split; [intros Hr; split; auto | intros [_ Hr]; exact Hr].
    + split; [discriminate|intros [Hc _]; discriminate Hc].
Qed.

Lemma check_arg_pairs_bad trait_name function_name l :
  check_arg_pairs lookup_trait_reference admits_type contract_defining_trait
    contract_to_check trait_name function_name l = Ok tt \/
  check_arg_pairs lookup_trait_reference admits_type contract_defining_trait
    contract_to_check trait_name function_name l =
    throw (BadTraitImplementation trait_name function_name).
Proof.
  induction l as [|p l IH]; simpl; [auto|].
  destruct (check_arg_pair_bad trait_name function_name p) as [H|H];
    rewrite H; simpl; auto.
Qed.
End CheckTraitClaims.

Section CheckTraitTheorems.
Context {SE CC : Type}.
Variable lookup_trait_reference : CC -> string -> option TraitIdentifier.
Variable admits_type : TypeSignature -> TypeSignature -> bool.

(** C2. At a position where the expected and the actual parameter types
    are both trait references, the expected alias is resolved in the
    contract defining the trait and the actual alias in the contract
    being checked; the position fails with [BadTraitImplementation (trait
    name, function name)] exactly when one of the resolutions fails or
    the two trait identities differ, and it passes whenever both resolve
    to the same identity, whatever the two alias names are. *)
Theorem check_trait_reference_position
    (contract_defining_trait contract_to_check : CC)
    (trait_name function_name expected actual : string) :
  (check_arg_pair lookup_trait_reference admits_type contract_defining_trait
     contract_to_check trait_name function_name
     (TraitReferenceType expected, TraitReferenceType actual) =
     throw (BadTraitImplementation trait_name function_name) <->
   lookup_trait_reference contract_defining_trait expected = None \/
   lookup_trait_reference contract_to_check actual = None \/
   exists expected_trait_id actual_trait_id,
     lookup_trait_reference contract_defining_trait expected = Some expected_trait_id /\
     lookup_trait_reference contract_to_check actual = Some actual_trait_id /\
     actual_trait_id <> expected_trait_id)
  /\ (forall trait_id,
        lookup_trait_reference contract_defining_trait expected = Some trait_id ->
        lookup_trait_reference contract_to_check actual = Some trait_id ->
        check_arg_pair lookup_trait_reference admits_type contract_defining_trait
          contract_to_check trait_name function_name
          (TraitReferenceType expected, TraitReferenceType actual) = Ok tt).
Proof.
  unfold check_arg_pair, throw.
  destruct (lookup_trait_reference contract_defining_trait expected) as [te|] eqn:He;
    destruct (lookup_trait_reference contract_to_check actual) as [ta|] eqn:Ha.
  - case_decide as Hne; split.
    + split; [intros _; right; right; eauto|reflexivity].
    + intros t [= <-] [= <-]. contradiction.
    + split; [discriminate|].
      intros [Hn|[Hn|(t1 & t2 & [= <-] & [= <-] & Hd)]]; discriminate || contradiction.
    + reflexivity.
  - split; [split; [intros _; right; left; reflexivity|reflexivity]|].
    intros t _ [=].
  - split; [split; [intros _; left; reflexivity|reflexivity]|].
    intros t [=].
  - split; [split; [intros _; left; reflexivity|reflexivity]|].
    intros t [=].
Qed.

(** C7. Given the trait's method named like [self], the check fails with
    [BadTraitImplementation (trait name, function name)] when the two
    parameter counts differ; it succeeds if and only if the counts agree
    and every parameter position is compatible; and any other outcome is
    that same failure, so one incompatible position fails the whole
    check. *)
Theorem check_trait_expectations_all_positions
    (lookup_trait_definition : CC -> string -> option (gmap string FunctionSignature))
    (self : DefinedFunction SE) (contract_defining_trait contract_to_check : CC)
    (trait_identifier : TraitIdentifier)
    (tbl : gmap string FunctionSignature) (expected_sig : FunctionSignature) :
  lookup_trait_definition contract_defining_trait (ti_name trait_identifier) = Some tbl ->
  tbl !! name self = Some expected_sig ->
  let result := check_trait_expectations lookup_trait_reference lookup_trait_definition
                  admits_type self contract_defining_trait trait_identifier
                  contract_to_check in
  (length (args expected_sig) <> length (arg_types self) ->
     result = throw (BadTraitImplementation (ti_name trait_identifier) (name self)))
  /\ (result = Ok tt <->
      length (args expected_sig) = length (arg_types self) /\
      Forall2 (position_compatible lookup_trait_reference admits_type
                 contract_defining_trait contract_to_check)
        (args expected_sig) (arg_types self))
  /\ (result <> Ok tt ->
      result = throw (BadTraitImplementation (ti_name trait_identifier) (name self))).
Proof.
  intros Htrait Hsig result. subst result.
  unfold check_trait_expectations. rewrite Htrait. cbn [unwrap mbind outcome_bind].
  rewrite Hsig. cbn [unwrap mbind outcome_bind].
  destruct (Nat.eqb_spec (length (args expected_sig)) (length (arg_types self)))
    as [Hlen|Hlen]; simpl.
  - split; [contradiction|split].
    + rewrite check_arg_pairs_ok by exact Hlen. tauto.
    + intros Hnot.
      destruct (check_arg_pairs_bad lookup_trait_reference admits_type
                  contract_defining_trait contract_to_check (ti_name trait_identifier)
                  (name self) (zip (args expected_sig) (arg_types self))) as [H|H];
        [contradiction|exact H].
  - split; [reflexivity|split; [|reflexivity]].
    split; [discriminate|intros [H _]; contradiction].
Qed.

(** C10. The check never consults the return types of the trait's
    methods: replacing them, method by method, in every trait definition
    does not change its outcome. *)
Theorem check_trait_expectations_ignores_returns
    (lookup_trait_definition : CC -> string -> option (gmap string FunctionSignature))
    (new_returns : CC -> string -> string -> TypeSignature)
    (self : DefinedFunction SE) (contract_defining_trait contract_to_check : CC)
    (trait_identifier : TraitIdentifier) :
  check_trait_expectations lookup_trait_reference lookup_trait_definition
    admits_type self contract_defining_trait trait_identifier contract_to_check =
  check_trait_expectations lookup_trait_reference
    (fun cc t => with_returns (new_returns cc t) <$> lookup_trait_definition cc t)
    admits_type self contract_defining_trait trait_identifier contract_to_check.
Proof.
  unfold check_trait_expectations.
  destruct (lookup_trait_definition contract_defining_trait (ti_name trait_identifier))
    as [tbl|]; simpl; [|reflexivity].
  unfold with_returns. rewrite map_lookup_imap.
  destruct (tbl !! name self) as [sig|]; reflexivity.
Qed.
End CheckTraitTheorems.

(* ------------------------------------------------------------------ *)
(** ** Claims about [FunctionIdentifier] *)

Fixpoint has_colon (s : string) : bool :=
  match s with
  | EmptyString => false
  | String c rest => if Ascii.eqb c ":"%char then true else has_colon rest
  end.

(** A string [context ++ ":" ++ name] splits uniquely at its first colon
    when [context] has none. *)
Lemma split_at_first_colon (c1 c2 n1 n2 : string) :
  has_colon c1 = false -> has_colon c2 = false ->
  c1 +:+ ":" +:+ n1 = c2 +:+ ":" +:+ n2 -> c1 = c2 /\ n1 = n2.
Proof.
  revert c2. induction c1 as [|a c1 IH]; intros [|b c2] H1 H2 Heq;
    simpl in H1, H2, Heq.
  - injection Heq as Hn. done.
  - injection Heq as Hb _. subst b. discriminate H2.
  - injection Heq as Ha _. subst a. discriminate H1.
  - injection Heq as Hab Heq. subst b.
    destruct (Ascii.eqb a ":"%char); [discriminate|].
    destruct (IH c2 H1 H2 Heq) as [-> ->]. done.
Qed.

(** C8 (counterexample). A user function defined in a context named
    [_native_] gets the identifier of the native function of the same
    name. *)
Lemma function_identifier_collision :
  new_user_function "foo" "_native_" = new_native_function "foo".
Proof. reflexivity. Qed.

(** C8 (amended). Native identifiers are injective in the name; user
    identifiers are injective in (name, context) for contexts without a
    colon; and a user identifier whose context has no colon and is not
    [_native_] never equals a native identifier. *)
Theorem function_identifier_injective :
  (forall n1 n2, new_native_function n1 = new_native_function n2 -> n1 = n2)
  /\ (forall n1 c1 n2 c2, has_colon c1 = false -> has_colon c2 = false ->
        new_user_function n1 c1 = new_user_function n2 c2 -> n1 = n2 /\ c1 = c2)
  /\ (forall n c m, has_colon c = false -> c <> "_native_" ->
        new_user_function n c <> new_native_function m).
Proof.
  split; [|split].
  - intros n1 n2 H. injection H as H. simpl in H.
    repeat (injection H as H). exact H.
  - intros n1 c1 n2 c2 H1 H2 H. injection H as H.
    destruct (split_at_first_colon c1 c2 n1 n2 H1 H2 H). auto.
  - intros n c m Hc Hne H. injection H as H.
    change ("_native_:" +:+ m) with ("_native_" +:+ ":" +:+ m) in H.
    destruct (split_at_first_colon c "_native_" n m Hc eq_refl H). contradiction.
Qed.

(* ------------------------------------------------------------------ *)
(** ** Runs of the conformance check on the sample contracts *)

Definition sample_check (impl : DefinedFunction Sample.SymbolicExpression)
    (contract_to_check : Sample.ContractContext) : outcome unit :=
  check_trait_expectations Sample.lookup_trait_reference Sample.lookup_trait_definition
    Sample.admits_type impl Sample.defining Sample.trait_id contract_to_check.

(** The same trait under the alias [tok] conforms. *)
Example sample_conforms :
  sample_check (Sample.mk_named "transfer"
                  [("t", TraitReferenceType "tok"); ("amount", UIntType)] (inl (Bool true)))
    Sample.checked = Ok tt.
Proof. vm_compute. reflexivity. Qed.

(** The alias [ft] of the checked contract names another trait. *)
Example sample_other_trait :
  sample_check (Sample.mk_named "transfer"
                  [("t", TraitReferenceType "ft"); ("amount", UIntType)] (inl (Bool true)))
    Sample.checked = Err (Unchecked (BadTraitImplementation "ft-trait" "transfer")).
Proof. vm_compute. reflexivity. Qed.

(* ------------------------------------------------------------------ *)
(** ** Witnesses: the theorems applied at concrete inputs *)

Lemma execute_apply_trait_argument_deferred_witness :
  Sample.lookup_trait_reference Sample.defining "ft" = Some Sample.trait_id /\
  bind_arg Sample.lookup_trait_reference Sample.admits Sample.defining LocalContext_new
    ("x", TraitReferenceType "ft", Principal (Contract Sample.token_contract)) =
    Ok {| variables := ∅;
          callable_contracts := <["x" := (Sample.token_contract, Sample.trait_id)]> ∅ |}.
Proof.
  split; [reflexivity|].
  apply (execute_apply_trait_argument_deferred
           (SE:=Sample.SymbolicExpression) (Env:=Sample.Environment)
           Sample.contract_context Sample.lookup_trait_reference Sample.admits
           (fun t v => deferred t v || Sample.admits t v) Sample.eval).
  reflexivity.
Defined.

Lemma execute_apply_body_outcome_witness :
  execute_apply Sample.contract_context Sample.lookup_trait_reference Sample.admits Sample.eval
    (Sample.mk_function [("a", IntType)] (inr (ShortReturn (Int 7)))) [Int 1] Sample.defining
  = Ok (Int 7).
Proof.
  refine (proj1 (execute_apply_body_outcome Sample.contract_context
                   Sample.lookup_trait_reference Sample.admits Sample.eval
                   (Sample.mk_function [("a", IntType)] (inr (ShortReturn (Int 7))))
                   [Int 1] Sample.defining
                   {| variables := <["a" := Int 1]> ∅; callable_contracts := ∅ |} _ _)
                (Int 7) _).
  - reflexivity.
  - vm_compute. reflexivity.
  - reflexivity.
Defined.

Lemma execute_apply_arity_mismatch_witness :
  execute_apply Sample.contract_context Sample.lookup_trait_reference Sample.admits Sample.eval
    (Sample.mk_function [("a", IntType); ("b", IntType)] (inl (Int 0))) [Int 1] Sample.defining
  = Err (Unchecked (IncorrectArgumentCount 2 1)).
Proof.
  apply (execute_apply_arity_mismatch Sample.contract_context Sample.lookup_trait_reference
           Sample.admits (Sample.mk_function [("a", IntType); ("b", IntType)] (inl (Int 0)))
           [Int 1] Sample.defining).
  simpl. lia.
Defined.

Lemma execute_apply_trait_lookup_no_panic_witness :
  execute_apply Sample.contract_context Sample.lookup_trait_reference Sample.admits Sample.eval
    (Sample.mk_function [("t", TraitReferenceType "ft"); ("a", IntType)] (inl (Int 0)))
    [Principal (Contract Sample.token_contract); Int 1] Sample.defining <> Panic.
Proof.
  apply execute_apply_trait_lookup_no_panic.
  intros t Ht. apply list_elem_of_In in Ht. simpl in Ht.
  destruct Ht as [<-|[<-|[]]]; simpl; [eexists; reflexivity|exact I].
Defined.

Lemma execute_apply_first_type_error_witness :
  execute_apply Sample.contract_context Sample.lookup_trait_reference Sample.admits Sample.eval
    (Sample.mk_function [("a", IntType); ("b", IntType)] (inl (Int 0)))
    [Int 1; Bool true] Sample.defining
  = Err (Unchecked (TypeValueError IntType (Bool true))).
Proof.
  apply (execute_apply_first_type_error Sample.contract_context Sample.lookup_trait_reference
           Sample.admits _ _ _ [("a", IntType, Int 1)] [] "b" IntType (Bool true)
           {| variables := <["a" := Int 1]> ∅; callable_contracts := ∅ |});
    vm_compute; reflexivity.
Defined.

Lemma check_trait_reference_position_witness :
  check_arg_pair Sample.lookup_trait_reference Sample.admits_type Sample.defining
    Sample.checked "ft-trait" "transfer" (TraitReferenceType "ft", TraitReferenceType "tok")
  = Ok tt.
Proof.
  apply (proj2 (check_trait_reference_position Sample.lookup_trait_reference
                  Sample.admits_type Sample.defining Sample.checked
                  "ft-trait" "transfer" "ft" "tok") Sample.trait_id);
    reflexivity.
Defined.

Lemma check_trait_expectations_all_positions_witness :
  check_trait_expectations Sample.lookup_trait_reference Sample.lookup_trait_definition
    Sample.admits_type
    (Sample.mk_named "transfer" [("t", TraitReferenceType "tok")] (inl (Bool true)))
    Sample.defining Sample.trait_id Sample.checked
  = throw (BadTraitImplementation "ft-trait" "transfer").
Proof.
  refine (proj1 (check_trait_expectations_all_positions Sample.lookup_trait_reference
                   Sample.admits_type Sample.lookup_trait_definition
                   (Sample.mk_named "transfer" [("t", TraitReferenceType "tok")]
                      (inl (Bool true)))
                   Sample.defining Sample.checked Sample.trait_id
                   {[ "transfer" := Sample.ft_method ]} Sample.ft_method _ _) _).
  - reflexivity.
  - reflexivity.
  - simpl. lia.
Defined.

Lemma function_identifier_injective_witness :
  has_colon Sample.context_name = false /\ Sample.context_name <> "_native_" /\
  new_user_function "transfer" Sample.context_name <> new_native_function "transfer".
Proof.
  split; [reflexivity|split; [discriminate|]].
  apply (proj2 (proj2 function_identifier_injective)); [reflexivity|discriminate].
Defined.

(* ------------------------------------------------------------------ *)
(** ** Dispatch, visibility and callable identifiers *)

(** [DefinedFunction::is_read_only] (through the derived [PartialEq]). *)
Definition is_read_only {SE} (self : DefinedFunction SE) : bool :=
  match define_type self with ReadOnly => true | _ => false end.

(** [DefinedFunction::is_public]. *)
Definition is_public {SE} (self : DefinedFunction SE) : bool :=
  match define_type self with
  | Public => true
  | Private => false
  | ReadOnly => true
  end.

(** [DefinedFunction::get_identifier]. *)
Definition get_identifier {SE} (self : DefinedFunction SE) : FunctionIdentifier :=
  df_identifier self.

Section Apply.
Variable SymbolicExpression : Type.
Variable Environment : Type.
Variable ContractContext : Type.
Variable contract_context : Environment -> ContractContext.
Variable lookup_trait_reference : ContractContext -> string -> option TraitIdentifier.
Variable admits : TypeSignature -> Value -> bool.
Variable eval : SymbolicExpression -> Environment -> LocalContext -> Value + Error.
(** [Environment::execute_function_as_transaction(function, args, sender)];
    the sender is [None] at both call sites below. *)
Variable execute_function_as_transaction :
  Environment -> DefinedFunction SymbolicExpression -> list Value ->
  option PrincipalData -> outcome Value.

(** [DefinedFunction::apply]. *)
Definition apply (self : DefinedFunction SymbolicExpression) (args_ : list Value)
    (env : Environment) : outcome Value :=
  match define_type self with
  | Private =>
      execute_apply contract_context lookup_trait_reference admits eval self args_ env
  | Public => execute_function_as_transaction env self args_ None
  | ReadOnly => execute_function_as_transaction env self args_ None
  end.
End Apply.

Arguments apply {_ _ _} _ _ _ _ _ _ _ _.

(** [CallableType]: a native function receives evaluated arguments, a
    special form the unevaluated argument expressions, the environment and
    the local context. *)
Inductive CallableType (SE Env : Type) :=
  | UserFunction (f : DefinedFunction SE)
  | NativeFunction (fname : string) (native : list Value -> Value + Error)
  | SpecialFunction (fname : string)
      (special : list SE -> Env -> LocalContext -> Value + Error).
Arguments UserFunction {_ _} f.
Arguments NativeFunction {_ _} fname native.
Arguments SpecialFunction {_ _} fname special.

(** [CallableType::get_identifier]. *)
Definition callable_get_identifier {SE Env} (c : CallableType SE Env) : FunctionIdentifier :=
  match c with
  | UserFunction f => get_identifier f
  | NativeFunction s _ => new_native_function s
  | SpecialFunction s _ => new_native_function s
  end.

(** The name of an argument triple of the binding loop. *)
Definition arg_name (arg : string * TypeSignature * Value) : string := arg.1.1.

(* ------------------------------------------------------------------ *)
(** ** What a successful binding step does *)

Section BindInversion.
Context {CC : Type}.
Variable lookup_trait_reference : CC -> string -> option TraitIdentifier.
Variable admits : TypeSignature -> Value -> bool.
Variable cc : CC.

Lemma bind_arg_ok_inv context context' n t v :
  bind_arg lookup_trait_reference admits cc context (n, t, v) = Ok context' ->
  (deferred t v = true ->
     variables context' = variables context /\
     exists r contract_id trait_id,
       t = TraitReferenceType r /\ v = Principal (Contract contract_id) /\
       lookup_trait_reference cc r = Some trait_id /\
       callable_contracts context' =
         <[n := (contract_id, trait_id)]> (callable_contracts context))
  /\ (deferred t v = false ->
     admits t v = true /\ variables context !! n = None /\
     variables context' = <[n := v]> (variables context) /\
     callable_contracts context' = callable_contracts context).
Proof.
  intros H.
  assert (Hord : deferred t v = false ->
            admits t v = true /\ variables context !! n = None /\
            variables context' = <[n := v]> (variables context) /\
            callable_contracts context' = callable_contracts context).
  { intros Hdef.
    assert (Hstep : bind_arg lookup_trait_reference admits cc context (n, t, v) =
              if negb (admits t v) then throw (TypeValueError t v)
              else match variables context !! n with
                   | Some _ => throw (NameAlreadyUsed n)
                   | None => Ok {| variables := <[n := v]> (variables context);
                                   callable_contracts := callable_contracts context |}
                   end).
    { destruct t; destruct v as [| | |[]| |]; try discriminate Hdef; reflexivity. }
    rewrite Hstep in H. unfold throw in H.
    destruct (admits t v); simpl in H; [|discriminate].
    destruct (variables context !! n); [discriminate|].
    injection H as <-. auto. }
  split; [|exact Hord].
  intros Hdef. destruct t as [| | | | | |r]; try discriminate Hdef.
  destruct v as [| | |[|contract_id]| |]; try discriminate Hdef.
  simpl in H. destruct (lookup_trait_reference cc r) as [trait_id|] eqn:Hl;
    simpl in H; [|discriminate].
  injection H as <-. simpl. split; [reflexivity|]. eauto 10.
Qed.
End BindInversion.

Section BindInvariants.
Context {CC : Type}.
Variable lookup_trait_reference : CC -> string -> option TraitIdentifier.
Variable admits : TypeSignature -> Value -> bool.
Variable cc : CC.

Lemma bind_args_ok_variables context l context' :
  bind_args lookup_trait_reference admits cc context l = Ok context' ->
  (forall n w, variables context !! n = Some w -> variables context' !! n = Some w) /\
  (forall n t v, (n, t, v) ∈ l -> deferred t v = false ->
     admits t v = true /\ variables context' !! n = Some v) /\
  (forall n w, variables context' !! n = Some w ->
     variables context !! n = Some w \/
     exists t, (n, t, w) ∈ l /\ deferred t w = false).
Proof.
  revert context. induction l as [|[[n t] v] l IH]; intros context H.
  - injection H as <-. split; [auto|split; [|auto]].
    intros n t v Hin. apply elem_of_nil in Hin. contradiction.
  - cbn [bind_args] in H.
    destruct (bind_arg _ _ _ _ _) as [context1| |] eqn:Hstep; simpl in H;
      try discriminate.
    destruct (IH context1 H) as (Hkeep & Hbound & Horig).
    destruct (bind_arg_ok_inv _ _ _ _ _ _ _ _ Hstep) as [Hdef Hord].
    destruct (deferred t v) eqn:Hd.
    + destruct (Hdef eq_refl) as [Hvars _]. rewrite Hvars in Hkeep, Horig.
      split; [exact Hkeep|split].
      * intros n' t' v' Hin Hd'. apply elem_of_cons in Hin as [Heq|Hin].
        -- injection Heq as -> -> ->. congruence.
        -- auto.
      * intros n' w Hw. destruct (Horig n' w Hw) as [Hc|(t' & Hin & Hd')]; [auto|].
        right. exists t'. split; [apply elem_of_cons; auto|exact Hd'].
    + destruct (Hord eq_refl) as (Hadm & Hfree & Hvars & _).
      rewrite Hvars in Hkeep, Horig. split; [|split].
      * intros n' w Hw. apply Hkeep. rewrite lookup_insert_ne; [exact Hw|].
        intros ->. congruence.
      * intros n' t' v' Hin Hd'. apply elem_of_cons in Hin as [Heq|Hin].
        -- injection Heq as -> -> ->. split; [exact Hadm|].
           apply Hkeep. apply lookup_insert_eq.
        -- auto.
      * intros n' w Hw. destruct (Horig n' w Hw) as [Hc|(t' & Hin & Hd')].
        -- destruct (decide (n = n')) as [<-|Hne].
           ++ rewrite lookup_insert_eq in Hc. injection Hc as <-.
              right. exists t. split; [apply elem_of_cons; auto|exact Hd].
           ++ rewrite lookup_insert_ne in Hc by exact Hne. auto.
        -- right. exists t'. split; [apply elem_of_cons; auto|exact Hd'].
Qed.
End BindInvariants.

Section CallableInvariants.
Context {CC : Type}.
Variable lookup_trait_reference : CC -> string -> option TraitIdentifier.
Variable admits : TypeSignature -> Value -> bool.
Variable cc : CC.

Lemma bind_args_ok_callables context l context' :
  bind_args lookup_trait_reference admits cc context l = Ok context' ->
  (forall n, is_Some (callable_contracts context !! n) ->
     is_Some (callable_contracts context' !! n)) /\
  (forall n r contract_id, (n, TraitReferenceType r, Principal (Contract contract_id)) ∈ l ->
     is_Some (callable_contracts context' !! n)) /\
  (forall n entry, callable_contracts context' !! n = Some entry ->
     callable_contracts context !! n = Some entry \/
     exists r contract_id trait_id,
       (n, TraitReferenceType r, Principal (Contract contract_id)) ∈ l /\
       lookup_trait_reference cc r = Some trait_id /\ entry = (contract_id, trait_id)).
Proof.
  revert context. induction l as [|[[n t] v] l IH]; intros context H.
  - injection H as <-. split; [auto|split; [|auto]].
    intros n r c Hin. apply elem_of_nil in Hin. contradiction.
  - cbn [bind_args] in H.
    destruct (bind_arg _ _ _ _ _) as [context1| |] eqn:Hstep; simpl in H;
      try discriminate.
    destruct (IH context1 H) as (Hkeep & Hpresent & Horig).
    destruct (bind_arg_ok_inv _ _ _ _ _ _ _ _ Hstep) as [Hdef Hord].
    destruct (deferred t v) eqn:Hd.
    + destruct (Hdef eq_refl) as [_ (r & c & tid & -> & -> & Hl & Hcc)].
      rewrite Hcc in Hkeep, Horig. split; [|split].
      * intros n' Hs. apply Hkeep. rewrite lookup_insert.
        case_decide; [eexists; reflexivity|exact Hs].
      * intros n' r' c' Hin. apply elem_of_cons in Hin as [Heq|Hin]; [|eauto].
        injection Heq as -> _ _. apply Hkeep. rewrite lookup_insert_eq.
        eexists; reflexivity.
      * intros n' entry He. destruct (Horig n' entry He) as [Hc|(r' & c' & tid' & Hin & Hl' & ->)].
        -- rewrite lookup_insert in Hc. case_decide as Heq.
           ++ subst n'. injection Hc as <-. right. exists r, c, tid.
              split; [apply elem_of_cons; auto|auto].
           ++ auto.
        -- right. exists r', c', tid'. split; [apply elem_of_cons; auto|auto].
    + destruct (Hord eq_refl) as (_ & _ & _ & Hcc).
      rewrite Hcc in Hkeep, Horig. split; [exact Hkeep|split].
      * intros n' r' c' Hin. apply elem_of_cons in Hin as [Heq|Hin]; [|eauto].
        injection Heq as -> <- <-. discriminate Hd.
      * intros n' entry He. destruct (Horig n' entry He) as [Hc|(r' & c' & tid' & Hin & Hl' & ->)];
          [auto|].
        right. exists r', c', tid'. split; [apply elem_of_cons; auto|auto].
Qed.
End CallableInvariants.

Section BindFailures.
Context {CC : Type}.
Variable lookup_trait_reference : CC -> string -> option TraitIdentifier.
Variable admits : TypeSignature -> Value -> bool.
Variable cc : CC.

Lemma bind_arg_err_inv context n t v e :
  bind_arg lookup_trait_reference admits cc context (n, t, v) = Err e ->
  e = Unchecked (TypeValueError t v) \/
  (is_Some (variables context !! n) /\ e = Unchecked (NameAlreadyUsed n)).
Proof.
  intros H.
  destruct t as [| | | | | |r]; destruct v as [| | |[]| |];
    cbn [bind_arg] in H;
    try (match type of H with
         | context [lookup_trait_reference cc ?r] =>
             destruct (lookup_trait_reference cc r); discriminate H
         end);
    unfold throw in H; destruct (admits _ _); simpl in H;
    try (injection H as <-; auto);
    destruct (variables context !! n) eqn:Hn; try discriminate H;
    injection H as <-; right; split; eauto.
Qed.



Lemma bind_args_distinct_names context l m :
  NoDup (map arg_name l) ->
  (forall x, x ∈ map arg_name l -> variables context !! x = None) ->
  bind_args lookup_trait_reference admits cc context l <> Err (Unchecked (NameAlreadyUsed m)).
Proof.
  revert context. induction l as [|[[n t] v] l IH]; intros context Hnd Hfree; [discriminate|].
  cbn [map arg_name] in Hnd, Hfree. fold arg_name in Hnd, Hfree.
  apply NoDup_cons in Hnd as [Hnotin Hnd].
  cbn [bind_args].
  destruct (bind_arg _ _ _ _ _) as [context1|e|] eqn:Hstep; simpl; [|intros [= ->]|discriminate].
  - apply IH; [exact Hnd|]. intros x Hx.
    destruct (bind_arg_ok_inv _ _ _ _ _ _ _ _ Hstep) as [Hdef Hord].
    destruct (deferred t v).
    + destruct (Hdef eq_refl) as [-> _]. apply Hfree. apply elem_of_cons. auto.
    + destruct (Hord eq_refl) as (_ & _ & -> & _).
      rewrite lookup_insert_ne; [apply Hfree, elem_of_cons; auto|].
      intros ->. contradiction.
  - destruct (bind_arg_err_inv _ _ _ _ _ Hstep) as [[=]|[[w Hw] [= ->]]].
    rewrite Hfree in Hw; [discriminate|apply elem_of_cons; auto].
Qed.
End BindFailures.

Lemma zip_names_elem {B C} (a : list string) (ts : list B) (vs : list C) x :
  x ∈ map (fun arg : string * B * C => arg.1.1) (zip (zip a ts) vs) -> x ∈ a.
Proof.
  revert ts vs. induction a as [|n a IH]; intros [|t ts] [|v vs]; simpl;
    try (intros Hx; apply elem_of_nil in Hx; contradiction).
  intros Hx. apply elem_of_cons in Hx as [->|Hx]; apply elem_of_cons; [auto|eauto].
Qed.

Lemma zip_names_NoDup {B C} (a : list string) (ts : list B) (vs : list C) :
  NoDup a -> NoDup (map (fun arg : string * B * C => arg.1.1) (zip (zip a ts) vs)).
Proof.
  revert ts vs. induction a as [|n a IH]; intros [|t ts] [|v vs] Hnd; simpl;
    try apply NoDup_nil_2.
  apply NoDup_cons in Hnd as [Hn Hnd]. apply NoDup_cons. split; [|auto].
  intros Hx. apply Hn. eapply zip_names_elem. exact Hx.
Qed.

Lemma zip_split {A B} (l : list (A * B)) : zip (split l).1 (split l).2 = l.
Proof.
  induction l as [|[a b] l IH]; [reflexivity|].
  simpl. destruct (split l) as [la lb] eqn:Hs. simpl in *. rewrite IH. reflexivity.
Qed.

(* ------------------------------------------------------------------ *)
(** ** Further properties of [execute_apply] and its binding loop *)

Section ExecuteApplyExtras.
Context {SE Env CC : Type}.
Variable contract_context : Env -> CC.
Variable lookup_trait_reference : CC -> string -> option TraitIdentifier.
Variable admits : TypeSignature -> Value -> bool.

(** A function built by [DefinedFunction::new] keeps one parameter type per
    parameter name, in the declared order, so the binding loop pairs the
    i-th argument with the i-th declared (name, type); its identifier is
    the user identifier of its name in its context. *)
Theorem new_defined_function_positional
    (params : list (string * TypeSignature)) (body_ : SE) (define_type_ : DefineType)
    (fname context_name : string) (args_ : list Value) :
  let f := new_defined_function SE params body_ define_type_ fname context_name in
  length (arguments f) = length params /\ length (arg_types f) = length params /\
  arg_iterator f args_ = zip params args_ /\
  get_identifier f = new_user_function fname context_name.
Proof.
  intros f. subst f. cbn [arguments arg_types get_identifier df_identifier new_defined_function].
  split; [apply length_fst_split|split; [apply length_snd_split|split; [|reflexivity]]].
  unfold arg_iterator. cbn [arguments arg_types new_defined_function].
  rewrite zip_split. reflexivity.
Qed.

(** When the binding loop succeeds, the variables map it hands to the body
    binds every parameter that is not a trait reference given a contract
    principal to its argument, whose type admits it, and binds nothing
    else. *)
Theorem bind_args_variables_exact (f : DefinedFunction SE) (args_ : list Value)
    (cc : CC) (context : LocalContext) :
  bind_args lookup_trait_reference admits cc LocalContext_new (arg_iterator f args_)
    = Ok context ->
  (forall n t v, (n, t, v) ∈ arg_iterator f args_ -> deferred t v = false ->
     admits t v = true /\ variables context !! n = Some v) /\
  (forall n w, variables context !! n = Some w ->
     exists t, (n, t, w) ∈ arg_iterator f args_ /\ deferred t w = false).
Proof.
  intros H. destruct (bind_args_ok_variables _ _ _ _ _ _ H) as (_ & Hbound & Horig).
  split; [exact Hbound|].
  intros n w Hw. destruct (Horig n w Hw) as [Hc|Hex]; [|exact Hex].
  cbn [variables callable_contracts LocalContext_new] in Hc.
  rewrite lookup_empty in Hc. discriminate.
Qed.

(** When the binding loop succeeds, every parameter that is a trait
    reference given a contract principal has an entry in the
    callable-contracts map, and every entry of that map is the principal of
    such a parameter with the trait identity its reference resolves to. *)
Theorem bind_args_callable_contracts_exact (f : DefinedFunction SE) (args_ : list Value)
    (cc : CC) (context : LocalContext) :
  bind_args lookup_trait_reference admits cc LocalContext_new (arg_iterator f args_)
    = Ok context ->
  (forall n r contract_id,
     (n, TraitReferenceType r, Principal (Contract contract_id)) ∈ arg_iterator f args_ ->
     is_Some (callable_contracts context !! n)) /\
  (forall n entry, callable_contracts context !! n = Some entry ->
     exists r contract_id trait_id,
       (n, TraitReferenceType r, Principal (Contract contract_id)) ∈ arg_iterator f args_ /\
       lookup_trait_reference cc r = Some trait_id /\ entry = (contract_id, trait_id)).
Proof.
  intros H. destruct (bind_args_ok_callables _ _ _ _ _ _ H) as (_ & Hpresent & Horig).
  split; [exact Hpresent|].
  intros n entry He. destruct (Horig n entry He) as [Hc|Hex]; [|exact Hex].
  cbn [variables callable_contracts LocalContext_new] in Hc.
  rewrite lookup_empty in Hc. discriminate.
Qed.

(** With pairwise distinct parameter names, binding never fails with
    [NameAlreadyUsed]. *)
Theorem bind_args_distinct_parameters (f : DefinedFunction SE) (args_ : list Value)
    (cc : CC) (m : string) :
  NoDup (arguments f) ->
  bind_args lookup_trait_reference admits cc LocalContext_new (arg_iterator f args_)
    <> Err (Unchecked (NameAlreadyUsed m)).
Proof.
  intros Hnd. apply bind_args_distinct_names.
  - apply zip_names_NoDup. exact Hnd.
  - intros x _. apply lookup_empty.
Qed.


(** Any error of the binding loop is the call's error, and the body is not
    evaluated: the result is the same for every evaluator. *)
Theorem execute_apply_binding_error (f : DefinedFunction SE) (args_ : list Value)
    (env : Env) (e : Error) :
  length args_ = length (arguments f) ->
  bind_args lookup_trait_reference admits (contract_context env) LocalContext_new
    (arg_iterator f args_) = Err e ->
  forall eval : SE -> Env -> LocalContext -> Value + Error,
    execute_apply contract_context lookup_trait_reference admits eval f args_ env = Err e.
Proof.
  intros Hlen Hb eval. unfold execute_apply.
  rewrite Hlen, Nat.eqb_refl, Hb. reflexivity.
Qed.
End ExecuteApplyExtras.

(* ------------------------------------------------------------------ *)
(** ** Further properties of [check_trait_expectations] *)

Section CheckTraitExtras.
Context {SE CC : Type}.
Variable lookup_trait_reference : CC -> string -> option TraitIdentifier.
Variable admits_type : TypeSignature -> TypeSignature -> bool.
Variable lookup_trait_definition : CC -> string -> option (gmap string FunctionSignature).

(** The check panics exactly when the defining contract has no trait of
    that name, or the trait has no method named like [self]. *)
Theorem check_trait_expectations_panic_iff (self : DefinedFunction SE)
    (contract_defining_trait contract_to_check : CC) (trait_identifier : TraitIdentifier) :
  check_trait_expectations lookup_trait_reference lookup_trait_definition admits_type
    self contract_defining_trait trait_identifier contract_to_check = Panic <->
  lookup_trait_definition contract_defining_trait (ti_name trait_identifier) = None \/
  exists tbl, lookup_trait_definition contract_defining_trait (ti_name trait_identifier)
                = Some tbl /\ tbl !! name self = None.
Proof.
  unfold check_trait_expectations.
  destruct (lookup_trait_definition _ _) as [tbl|]; simpl.
  2: { split; [auto|reflexivity]. }
  destruct (tbl !! name self) as [sig|] eqn:Hm; simpl.
  2: { split; [eauto|reflexivity]. }
  split; [|intros [[=]|(tbl' & [= <-] & Hn)]; congruence].
  intros H. exfalso.
  destruct (Nat.eqb _ _); simpl in H; [|discriminate].
  match type of H with
  | check_arg_pairs _ _ _ _ ?tn ?fn ?l = Panic =>
      destruct (check_arg_pairs_bad lookup_trait_reference admits_type
                  contract_defining_trait contract_to_check tn fn l) as [Hr|Hr];
      rewrite Hr in H; discriminate
  end.
Qed.

(** Conformance is reflexive: when [admits_type] is reflexive and the
    defining contract resolves the trait references among the method's
    parameter types, a function whose parameter types are exactly the
    method's conforms when checked against the defining contract itself. *)
Theorem check_trait_expectations_same_signature (self : DefinedFunction SE)
    (contract_defining_trait : CC) (trait_identifier : TraitIdentifier)
    (tbl : gmap string FunctionSignature) (expected_sig : FunctionSignature) :
  (forall t, admits_type t t = true) ->
  (forall t, t ∈ args expected_sig -> resolves lookup_trait_reference contract_defining_trait t) ->
  lookup_trait_definition contract_defining_trait (ti_name trait_identifier) = Some tbl ->
  tbl !! name self = Some expected_sig ->
  arg_types self = args expected_sig ->
  check_trait_expectations lookup_trait_reference lookup_trait_definition admits_type
    self contract_defining_trait trait_identifier contract_defining_trait = Ok tt.
Proof.
  intros Hrefl Hres Htrait Hsig Htypes.
  unfold check_trait_expectations. rewrite Htrait. cbn [unwrap mbind outcome_bind].
  rewrite Hsig. cbn [unwrap mbind outcome_bind].
  rewrite Htypes, Nat.eqb_refl. simpl.
  apply check_arg_pairs_ok; [reflexivity|].
  clear Htrait Hsig Htypes. revert Hres. generalize (args expected_sig) as ts.
  intros ts Hres. induction ts as [|t ts IH]; constructor.
  - specialize (Hres t (proj2 (elem_of_cons _ _ _) (or_introl eq_refl))).
    destruct t; simpl; try apply Hrefl.
    destruct Hres as [tid Ht]. exists tid. auto.
  - apply IH. intros t' Ht'. apply Hres. apply elem_of_cons. auto.
Qed.

(** The check reads only the name and the parameter types of [self]: its
    parameter names, body and visibility do not affect conformance. *)
Theorem check_trait_expectations_depends_on_signature (self self' : DefinedFunction SE)
    (contract_defining_trait contract_to_check : CC) (trait_identifier : TraitIdentifier) :
  name self = name self' -> arg_types self = arg_types self' ->
  check_trait_expectations lookup_trait_reference lookup_trait_definition admits_type
    self contract_defining_trait trait_identifier contract_to_check =
  check_trait_expectations lookup_trait_reference lookup_trait_definition admits_type
    self' contract_defining_trait trait_identifier contract_to_check.
Proof.
  intros Hn Ht. unfold check_trait_expectations. rewrite Hn, Ht. reflexivity.
Qed.
End CheckTraitExtras.

(* ------------------------------------------------------------------ *)
(** ** Dispatch and callable identifiers *)

(** [apply] evaluates a function directly exactly when it is not public,
    that is when it is [Private]; public and read-only functions go through
    the transaction executor with no sender; read-only functions are
    public. *)
Theorem apply_routes_by_visibility {SE Env CC}
    (contract_context : Env -> CC)
    (lookup_trait_reference : CC -> string -> option TraitIdentifier)
    (admits : TypeSignature -> Value -> bool)
    (eval : SE -> Env -> LocalContext -> Value + Error)
    (execute_function_as_transaction :
       Env -> DefinedFunction SE -> list Value -> option PrincipalData -> outcome Value)
    (f : DefinedFunction SE) (args_ : list Value) (env : Env) :
  apply contract_context lookup_trait_reference admits eval execute_function_as_transaction
    f args_ env =
    (if is_public f then execute_function_as_transaction env f args_ None
     else execute_apply contract_context lookup_trait_reference admits eval f args_ env)
  /\ (is_public f = false <-> define_type f = Private)
  /\ (is_read_only f = true -> is_public f = true).
Proof.
  unfold apply, is_public, is_read_only.
  destruct (define_type f); repeat split; congruence.
Qed.

(** Identifiers of callables: a user function defined in a context with no
    colon other than [_native_] never shares its identifier with a native
    function or a special form, while a native function and a special form
    of the same name share one. *)
Theorem callable_identifiers_namespaces {SE Env} :
  (forall params (body_ : SE) define_type_ fname context_name s
          (c : CallableType SE Env),
     has_colon context_name = false -> context_name <> "_native_" ->
     (exists native, c = NativeFunction s native) \/
     (exists special, c = SpecialFunction s special) ->
     callable_get_identifier
       (UserFunction (new_defined_function SE params body_ define_type_ fname context_name)
          : CallableType SE Env)
     <> callable_get_identifier c)
  /\ (forall s native special,
        callable_get_identifier (NativeFunction s native : CallableType SE Env) =
        callable_get_identifier (SpecialFunction s special : CallableType SE Env)).
Proof.
  split; [|reflexivity].
  intros params body_ dt fname ctx s c Hc Hne Hkind.
  assert (Hid : callable_get_identifier c = new_native_function s).
  { destruct Hkind as [[nat ->]|[sp ->]]; reflexivity. }
  rewrite Hid. simpl. unfold get_identifier, new_native_function, new_user_function. simpl.
  intros [= H].
  change ("_native_:" +:+ s) with ("_native_" +:+ ":" +:+ s) in H.
  destruct (split_at_first_colon ctx "_native_" fname s Hc eq_refl H). contradiction.
Qed.

(* ------------------------------------------------------------------ *)
(** ** Witnesses of the further properties *)

Definition sample_trait_param_function :=
  Sample.mk_function [("t", TraitReferenceType "ft"); ("a", IntType)] (inl (Int 0)).
Definition sample_trait_param_args :=
  [Principal (Contract Sample.token_contract); Int 1].
Definition sample_bound_context : LocalContext :=
  {| variables := <["a" := Int 1]> ∅;
     callable_contracts := <["t" := (Sample.token_contract, Sample.trait_id)]> ∅ |}.

Lemma bind_args_variables_exact_witness :
  Sample.admits IntType (Int 1) = true /\ variables sample_bound_context !! "a" = Some (Int 1).
Proof.
  refine (proj1 (bind_args_variables_exact Sample.lookup_trait_reference Sample.admits
                   sample_trait_param_function sample_trait_param_args Sample.defining
                   sample_bound_context _) "a" IntType (Int 1) _ _).
  - vm_compute. reflexivity.
  - vm_compute. apply list_elem_of_further, list_elem_of_here.
  - reflexivity.
Defined.

Lemma bind_args_callable_contracts_exact_witness :
  is_Some (callable_contracts sample_bound_context !! "t").
Proof.
  refine (proj1 (bind_args_callable_contracts_exact Sample.lookup_trait_reference
                   Sample.admits sample_trait_param_function sample_trait_param_args
                   Sample.defining sample_bound_context _) "t" "ft" Sample.token_contract _).
  - vm_compute. reflexivity.
  - vm_compute. apply list_elem_of_here.
Defined.

Lemma bind_args_distinct_parameters_witness :
  bind_args Sample.lookup_trait_reference Sample.admits Sample.defining LocalContext_new
    (arg_iterator sample_trait_param_function sample_trait_param_args)
  <> Err (Unchecked (NameAlreadyUsed "t")).
Proof.
  apply bind_args_distinct_parameters.
  apply (bool_decide_unpack _). vm_compute. reflexivity.
Defined.


Lemma execute_apply_binding_error_witness :
  Sample.run (Sample.mk_function [("a", IntType)] (inl (Int 0))) [Bool true]
  = Err (Unchecked (TypeValueError IntType (Bool true))).
Proof.
  apply execute_apply_binding_error; vm_compute; reflexivity.
Defined.

Definition sample_transfer :=
  Sample.mk_named "transfer" [("t", TraitReferenceType "ft"); ("amount", UIntType)]
    (inl (Bool true)).

Lemma check_trait_expectations_same_signature_witness :
  check_trait_expectations Sample.lookup_trait_reference Sample.lookup_trait_definition
    Sample.admits_type sample_transfer Sample.defining Sample.trait_id Sample.defining = Ok tt.
Proof.
  apply (check_trait_expectations_same_signature Sample.lookup_trait_reference
           Sample.admits_type Sample.lookup_trait_definition sample_transfer Sample.defining
           Sample.trait_id {[ "transfer" := Sample.ft_method ]} Sample.ft_method).
  - intros t. unfold Sample.admits_type. apply bool_decide_eq_true_2. reflexivity.
  - intros t Ht. vm_compute in Ht.
    apply elem_of_cons in Ht as [->|Ht]; [eexists; reflexivity|].
    apply elem_of_cons in Ht as [->|Ht]; [exact I|apply elem_of_nil in Ht; contradiction].
  - reflexivity.
  - reflexivity.
  - reflexivity.
Defined.

Lemma check_trait_expectations_depends_on_signature_witness :
  sample_check sample_transfer Sample.checked =
  sample_check
    (new_defined_function _ [("other", TraitReferenceType "ft"); ("n", UIntType)]
       (inr (Runtime 0)) Public "transfer" "SP000000000000000000002Q6VF78.other")
    Sample.checked.
Proof.
  apply check_trait_expectations_depends_on_signature; reflexivity.
Defined.

Lemma callable_identifiers_namespaces_witness :
  callable_get_identifier
    (UserFunction (new_defined_function Sample.SymbolicExpression [] (inl (Int 0)) Private
                     "map" Sample.context_name) : CallableType Sample.SymbolicExpression unit)
  <> callable_get_identifier
       (NativeFunction "map" (fun _ => inl (Int 0)) : CallableType Sample.SymbolicExpression unit).
Proof.
  apply (proj1 callable_identifiers_namespaces _ _ _ _ _ "map").
  - reflexivity.
  - discriminate.
  - left. eexists. reflexivity.
Defined.
